(** * SkillConnect accounts backend: model and verified properties

    Shallow embedding of [accounts/models.py] (the [User] table) and
    [accounts/views.py] (the handlers [login_user] and [register_user]).

    The table is a list of rows in insertion order; a handler is a
    computation over the table that returns a response or lets an
    exception escape.  Request bodies are JSON objects whose fields hold
    strings; a field that is absent (or null) reads as Python's [None].
    Strings are compared byte for byte; [String.length] stands for
    Python's [len]. *)

From Stdlib Require Import Ascii String.
From stdpp Require Import base option list strings gmap.

Open Scope string_scope.
Open Scope list_scope.
Open Scope nat_scope.

(** ** The data model ([accounts/models.py]) *)

Module models.

(** [class User(models.Model)]: the two declared columns. *)
Record User := mkUser { email : string; password : string }.

#[global] Instance User_eq_dec : EqDecision User.
Proof. solve_decision. Defined.

(** The field classes the model uses. *)
Inductive FieldClass := CharField | EmailField.

(** The options of a field declaration that bear on validation.
    [blank] and [unique] default to [False] in Django; an [EmailField]
    declared without [max_length] has [max_length=254]. *)
Record Field := mkField {
  field_class : FieldClass;
  max_length : nat;
  unique : bool;
  blank : bool
}.

(** [email = models.EmailField(unique=True)] *)
Definition User_email : Field :=
  {| field_class := EmailField; max_length := 254; unique := true; blank := false |}.

(** [password = models.CharField(max_length=128)] *)
Definition User_password : Field :=
  {| field_class := CharField; max_length := 128; unique := false; blank := false |}.


End models.
Export models.

(** ** The table and the computations over it *)

(** The rows of the [User] table, oldest first. *)
Abbreviation Store := (list User).

(** The exceptions the handlers can meet. *)
Inductive Exn :=
  | DoesNotExist
  | MultipleObjectsReturned
  | IntegrityError
  | AssertionError.

#[global] Instance Exn_eq_dec : EqDecision Exn.
Proof. solve_decision. Defined.

(** A computation reads and writes the table and either returns a value
    or raises. *)
Definition db (A : Type) : Type := Store → (Exn + A) * Store.

#[global] Instance db_ret : MRet db := λ A a st, (inr a, st).

#[global] Instance db_bind : MBind db := λ A B f m st,
  match m st with
  | (inr a, st') => f a st'
  | (inl e, st') => (inl e, st')
  end.

(** [try: m  except exn: h]; any other exception propagates. *)
Definition try_except {A} (m : db A) (exn : Exn) (h : db A) : db A := λ st,
  match m st with
  | (inl e, st') => if decide (e = exn) then h st' else (inl e, st')
  | r => r
  end.

(** The uniqueness constraint of the [email] column. *)
Definition unique_email (st : Store) : Prop := NoDup (email <$> st).

#[global] Instance unique_email_dec st : Decision (unique_email st).
Proof. unfold unique_email. apply _. Defined.

(** ** The manager [User.objects] *)

Module objects.

(** An [exact] lookup of a column against a Python value.  [None]
    compiles to [IS NULL], which no row satisfies since both columns are
    [NOT NULL]. *)
Definition exact (v : option string) (column : string) : bool :=
  match v with
  | None => false
  | Some s => bool_decide (column = s)
  end.

(** [User.objects.filter(email=..., password=...)] *)
Definition filter_by (email_ password_ : option string) (st : Store) : list User :=
  List.filter (λ u, exact email_ (email u) && exact password_ (password u)) st.

(** [User.objects.get(email=..., password=...)]: the single matching
    row, or [DoesNotExist], or [MultipleObjectsReturned]. *)
Definition get (email_ password_ : option string) : db User := λ st,
  match filter_by email_ password_ st with
  | [] => (inl DoesNotExist, st)
  | [u] => (inr u, st)
  | _ => (inl MultipleObjectsReturned, st)
  end.

(** [User.objects.create(...)]: the [INSERT] behind [serializer.save()];
    the unique index that [unique=True] puts on [email] refuses a second
    row with the same address. *)
Definition create (u : User) : db User := λ st,
  if decide (email u ∈ email <$> st)
  then (inl IntegrityError, st)
  else (inr u, st ++ [u]).

End objects.

(** ** Requests and responses *)

(** [request.data]: the parsed body. *)
Record Request := mkRequest { data : gmap string string }.

(** The [code] of a validation error. *)
Inductive ErrorDetail :=
  | required
  | blank_error
  | invalid
  | max_length_error
  | unique_error.

#[global] Instance ErrorDetail_eq_dec : EqDecision ErrorDetail.
Proof. solve_decision. Defined.

(** The values found in a response body. *)
Inductive Value :=
  | VBool (b : bool)
  | VStr (s : string)
  | VErrors (l : list ErrorDetail).

(** [Response(data, status=...)]; the body is a dict, kept in insertion
    order. *)
Record Response := mkResponse {
  response_data : list (string * Value);
  status_code : nat
}.

Module status.
Definition HTTP_200_OK : nat := 200.
Definition HTTP_201_CREATED : nat := 201.
Definition HTTP_400_BAD_REQUEST : nat := 400.
Definition HTTP_401_UNAUTHORIZED : nat := 401.
End status.

(** ** [login_user] ([accounts/views.py]) *)

Definition login_user (request : Request) : db Response :=
  let email := data request !! "email" in
  let password := data request !! "password" in
  try_except
    (user ← objects.get email password;
     mret (mkResponse [("success", VBool true)] status.HTTP_200_OK))
    DoesNotExist
    (mret (mkResponse [("error", VStr "Invalid email or password")]
                      status.HTTP_401_UNAUTHORIZED)).

(** ** [UserSerializer] *)

Section views.

(** The syntax test of an [EmailField] value (Django's [EmailValidator]),
    which the sources do not contain; the handlers are parametric in it. *)
Variable email_syntax_ok : string → bool.

(** Modelled from the spec: the check of one value against one declared
    field, which [UserSerializer] ([accounts/serializers.py], not among the
    sources) runs when it "validates input against the data model": a
    missing value, an empty one, and for a filled one the syntax, the
    length and the uniqueness in the column. *)
Definition validate_field (f : Field) (column : list string)
    (v : option string) : list ErrorDetail :=
  match v with
  | None => [required]
  | Some s =>
    if decide (s = "") then (if blank f then [] else [blank_error])
    else
      (match field_class f with
       | EmailField => if email_syntax_ok s then [] else [invalid]
       | CharField => []
       end) ++
      (if decide (String.length s ≤ max_length f) then [] else [max_length_error]) ++
      (if unique f && bool_decide (s ∈ column) then [unique_error] else [])
  end.

(** An email value that the declaration of [email] refuses whatever the
    table holds. *)
Definition malformed (e : string) : Prop :=
  e = "" ∨ email_syntax_ok e = false ∨ 254 < String.length e.

(** Modelled from the spec: [UserSerializer] ([accounts/serializers.py])
    is not among the sources.  The registration handler "validates input
    against the data model; on success, persists a new User [...]; on
    validation failure (e.g., duplicate email, malformed email), returns
    the validation errors".  The serializer holds the request body, and
    after [is_valid] the row to store or the errors per field. *)
Record UserSerializer := mkSerializer {
  initial_data : gmap string string;
  validated_data : option User;
  errors : list (string * Value)
}.

(** Modelled from the spec: [UserSerializer(data=request.data)], the
    serializer before validation. *)
Definition UserSerializer_init (d : gmap string string) : UserSerializer :=
  {| initial_data := d; validated_data := None; errors := [] |}.

(** Modelled from the spec: the entry of a field in [serializer.errors]
    ("the validation errors"), present only when the field has errors. *)
Definition field_errors (name : string) (errs : list ErrorDetail)
    : list (string * Value) :=
  match errs with
  | [] => []
  | _ => [(name, VErrors errs)]
  end.

(** Modelled from the spec: the validation of a body "against the data
    model": both fields are checked against the declarations of [User],
    the email also against the addresses already in the table. *)
Definition run_validation (d : gmap string string) (st : Store)
    : list (string * Value) :=
  field_errors "email"
    (validate_field User_email (email <$> st) (d !! "email")) ++
  field_errors "password"
    (validate_field User_password (password <$> st) (d !! "password")).

(** Modelled from the spec: [serializer.is_valid()] validates the body,
    reading the table, and keeps the outcome in the serializer. *)
Definition is_valid (self : UserSerializer) : db (bool * UserSerializer) := λ st,
  match run_validation (initial_data self) st,
        initial_data self !! "email", initial_data self !! "password" with
  | [], Some e, Some p =>
    (inr (true, {| initial_data := initial_data self;
                   validated_data := Some (mkUser e p);
                   errors := [] |}), st)
  | errs, _, _ =>
    (inr (false, {| initial_data := initial_data self;
                    validated_data := None;
                    errors := errs |}), st)
  end.

(** Modelled from the spec: [serializer.save()] persists the validated
    row; calling it on a serializer that is not valid is an assertion
    failure. *)
Definition save (self : UserSerializer) : db User :=
  match validated_data self with
  | Some u => objects.create u
  | None => λ st, (inl AssertionError, st)
  end.

(** ** [register_user] ([accounts/views.py]) *)

Definition register_user (request : Request) : db Response :=
  let serializer := UserSerializer_init (data request) in
  '(ok, serializer) ← is_valid serializer;
  if (ok : bool) then
    _ ← save serializer;
    mret (mkResponse [("message", VStr "User registered successfully!")]
                     status.HTTP_201_CREATED)
  else
    mret (mkResponse (errors serializer) status.HTTP_400_BAD_REQUEST).

(** ** The two endpoints and a run of the server *)

(** [POST /register] and [POST /login]. *)
Inductive Call :=
  | Register (request : Request)
  | Login (request : Request).

Definition handle (c : Call) : db Response :=
  match c with
  | Register request => register_user request
  | Login request => login_user request
  end.

(** The table after a sequence of calls; a call that raises leaves the
    table as the exception found it. *)
Definition serve (cs : list Call) (st : Store) : Store :=
  foldl (λ st c, (handle c st).2) st cs.

End views.

(** A body with the two fields. *)
Definition credentials (e p : string) : Request :=
  mkRequest {[ "email" := e; "password" := p ]}.

(** The first test of Django's [EmailValidator]: the value holds an [@].
    Used to run the handlers on concrete requests. *)
Definition contains_at (s : string) : bool :=
  existsb (Ascii.eqb "@"%char) (String.list_ascii_of_string s).

(** The store has a row with this address and this password. *)
Definition has_row (st : Store) (e p : string) : Prop :=
  ∃ u, u ∈ st ∧ email u = e ∧ password u = p.


(** The two responses of [login_user]. *)
Definition login_ok : Response :=
  mkResponse [("success", VBool true)] status.HTTP_200_OK.
Definition login_refused : Response :=
  mkResponse [("error", VStr "Invalid email or password")]
             status.HTTP_401_UNAUTHORIZED.

(** The response of a successful [register_user]. *)
Definition registered : Response :=
  mkResponse [("message", VStr "User registered successfully!")]
             status.HTTP_201_CREATED.

(** ** Rows and calls *)

Section rows.

Variable email_syntax_ok : string → bool.

(** A row that meets the declarations of both columns of [User]. *)
Definition valid_row (u : User) : Prop :=
  email u ≠ "" ∧ email_syntax_ok (email u) = true ∧
  String.length (email u) ≤ 254 ∧
  password u ≠ "" ∧ String.length (password u) ≤ 128.

#[global] Instance valid_row_dec u : Decision (valid_row u).
Proof. unfold valid_row. apply _. Defined.

End rows.

(** The calls to [POST /register]. *)
Definition is_register (c : Call) : bool :=
  match c with
  | Register _ => true
  | Login _ => false
  end.

(** * Properties *)

(** Settles a closed decidable proposition by evaluation. *)
Ltac by_decide :=
  lazymatch goal with
  | |- ?P => apply (bool_decide_unpack P); vm_compute; exact I
  end.

(** ** The lookup *)

Lemma exact_Some s column : objects.exact (Some s) column = true ↔ column = s.
Proof. unfold objects.exact. apply bool_decide_eq_true. Qed.

Lemma elem_of_filter_by oe op st u :
  u ∈ objects.filter_by oe op st ↔
  u ∈ st ∧ objects.exact oe (email u) = true ∧ objects.exact op (password u) = true.
Proof.
  unfold objects.filter_by.
  rewrite !list_elem_of_In, List.filter_In, andb_true_iff. tauto.
Qed.

Lemma filter_by_None_l op st : objects.filter_by None op st = [].
Proof. unfold objects.filter_by. induction st as [|u st IH]; simpl; auto. Qed.

Lemma filter_by_None_r oe st : objects.filter_by oe None st = [].
Proof.
  unfold objects.filter_by. induction st as [|u st IH]; simpl; auto.
  rewrite andb_false_r. exact IH.
Qed.

(** No row of the table has the address [e]: nothing is selected. *)
Lemma filter_by_fresh e op st :
  e ∉ email <$> st → objects.filter_by (Some e) op st = [].
Proof.
  intros Hfresh. destruct (objects.filter_by (Some e) op st) as [|u l] eqn:E; [done|].
  exfalso. apply Hfresh.
  assert (Hu : u ∈ objects.filter_by (Some e) op st) by (rewrite E; left).
  apply elem_of_filter_by in Hu as (Hin & He & _).
  apply exact_Some in He. subst e. by apply list_elem_of_fmap_2.
Qed.

(** Under the uniqueness constraint a lookup selects at most one row. *)
Lemma filter_by_unique oe op st :
  unique_email st → length (objects.filter_by oe op st) ≤ 1.
Proof.
  destruct oe as [e|]; [|rewrite filter_by_None_l; simpl; lia].
  unfold unique_email.
  induction st as [|u st IH]; intros Hnd; [simpl; lia|].
  rewrite fmap_cons in Hnd. apply NoDup_cons in Hnd as [Hfresh Hnd].
  unfold objects.filter_by. cbn [List.filter].
  fold (objects.filter_by (Some e) op st).
  destruct (objects.exact (Some e) (email u)) eqn:He; cbn [andb].
  - apply exact_Some in He. rewrite He in Hfresh.
    rewrite (filter_by_fresh e op st Hfresh).
    destruct (objects.exact op (password u)); simpl; lia.
  - by apply IH.
Qed.

(** The three outcomes of [get], by the number of selected rows. *)
Lemma get_none oe op st :
  objects.filter_by oe op st = [] → objects.get oe op st = (inl DoesNotExist, st).
Proof. unfold objects.get. by intros ->. Qed.

Lemma get_one oe op st u :
  objects.filter_by oe op st = [u] → objects.get oe op st = (inr u, st).
Proof. unfold objects.get. by intros ->. Qed.

Lemma get_many oe op st u v l :
  objects.filter_by oe op st = u :: v :: l →
  objects.get oe op st = (inl MultipleObjectsReturned, st).
Proof. unfold objects.get. by intros ->. Qed.

(** ** [login_user] in terms of the selected rows *)

Lemma login_user_none request st :
  objects.filter_by (data request !! "email") (data request !! "password") st = [] →
  login_user request st = (inr login_refused, st).
Proof.
  intros H. unfold login_user, try_except, mbind, db_bind.
  by rewrite (get_none _ _ _ H).
Qed.

Lemma login_user_one request st u :
  objects.filter_by (data request !! "email") (data request !! "password") st = [u] →
  login_user request st = (inr login_ok, st).
Proof.
  intros H. unfold login_user, try_except, mbind, db_bind.
  by rewrite (get_one _ _ _ _ H).
Qed.

Lemma login_user_many request st u v l :
  objects.filter_by (data request !! "email") (data request !! "password") st
    = u :: v :: l →
  login_user request st = (inl MultipleObjectsReturned, st).
Proof.
  intros H. unfold login_user, try_except, mbind, db_bind.
  by rewrite (get_many _ _ _ _ _ _ H).
Qed.

(** Under the uniqueness constraint: 200 or 401, by whether a row is
    selected. *)
Lemma login_user_cases request st :
  unique_email st →
  let rows :=
    objects.filter_by (data request !! "email") (data request !! "password") st in
  (rows = [] ∧ login_user request st = (inr login_refused, st)) ∨
  (∃ u, rows = [u] ∧ login_user request st = (inr login_ok, st)).
Proof.
  intros Hu rows. pose proof (filter_by_unique (data request !! "email")
    (data request !! "password") st Hu) as Hlen. fold rows in Hlen.
  destruct rows as [|u [|v l]] eqn:E; simpl in Hlen; [| |lia].
  - left. split; [done|]. by apply login_user_none.
  - right. exists u. split; [done|]. by eapply login_user_one.
Qed.

Lemma has_row_filter_by st e p :
  has_row st e p ↔ objects.filter_by (Some e) (Some p) st ≠ [].
Proof.
  split.
  - intros (u & Hin & He & Hp) Hnil.
    assert (Hu : u ∈ objects.filter_by (Some e) (Some p) st).
    { apply elem_of_filter_by. by rewrite !exact_Some. }
    rewrite Hnil in Hu. by apply not_elem_of_nil in Hu.
  - intros Hne. destruct (objects.filter_by (Some e) (Some p) st) as [|u l] eqn:E; [done|].
    assert (Hu : u ∈ objects.filter_by (Some e) (Some p) st) by (rewrite E; left).
    apply elem_of_filter_by in Hu as (Hin & He & Hp).
    apply exact_Some in He, Hp. by exists u.
Qed.

Lemma login_user_no_row st request e p :
  data request !! "email" = Some e →
  data request !! "password" = Some p →
  ¬ has_row st e p → login_user request st = (inr login_refused, st).
Proof.
  intros He Hp Hno. apply login_user_none. rewrite He, Hp.
  destruct (objects.filter_by (Some e) (Some p) st) eqn:E; [done|].
  exfalso. apply Hno, has_row_filter_by. by rewrite E.
Qed.

Lemma login_user_has_row st request e p :
  unique_email st →
  data request !! "email" = Some e →
  data request !! "password" = Some p →
  has_row st e p → login_user request st = (inr login_ok, st).
Proof.
  intros Hu He Hp Hyes.
  destruct (login_user_cases request st Hu) as [[Hrows _]|(u & _ & Hr)]; [|done].
  rewrite He, Hp in Hrows. by apply has_row_filter_by in Hyes.
Qed.

(** Two rows of a table that satisfies the constraint and have the same
    address are one row. *)
Lemma unique_email_row st u v :
  unique_email st → u ∈ st → v ∈ st → email u = email v → u = v.
Proof.
  intros Hu Hin1 Hin2 He.
  destruct (list_elem_of_lookup_1 _ _ Hin1) as [i Hi].
  destruct (list_elem_of_lookup_1 _ _ Hin2) as [j Hj].
  assert (i = j); [|congruence].
  eapply (NoDup_lookup _ i j (email u) Hu); rewrite list_lookup_fmap.
  - by rewrite Hi.
  - rewrite Hj. simpl. by rewrite He.
Qed.

(** C1: on a table that satisfies the uniqueness constraint, a login
    request carrying the strings [e] and [p] is answered 200 with
    [{"success": true}] if and only if some row has exactly this address
    and this password; every other request is answered 401 with the
    generic error body. *)
Theorem login_user_200_iff_row st request e p :
  unique_email st →
  data request !! "email" = Some e →
  data request !! "password" = Some p →
  ((login_user request st).1 = inr login_ok ↔ has_row st e p) ∧
  (has_row st e p → login_user request st = (inr login_ok, st)) ∧
  (¬ has_row st e p → login_user request st = (inr login_refused, st)).
Proof.
  intros Hu He Hp. split_and!.
  - split; [|intros Hyes; by rewrite (login_user_has_row st request e p)].
    intros Hok. destruct (decide (objects.filter_by (Some e) (Some p) st = []))
      as [Hnil|Hne]; [|by apply has_row_filter_by].
    rewrite login_user_none in Hok by (by rewrite He, Hp). discriminate.
  - by apply login_user_has_row.
  - by apply login_user_no_row.
Qed.

Lemma login_user_200_iff_row_witness :
  unique_email [mkUser "a@b.com" "x"] ∧
  login_user (credentials "a@b.com" "x") [mkUser "a@b.com" "x"]
    = (inr login_ok, [mkUser "a@b.com" "x"]).
Proof.
  assert (Hu : unique_email [mkUser "a@b.com" "x"]).
  { by_decide. }
  split; [exact Hu|].
  apply (login_user_200_iff_row [mkUser "a@b.com" "x"]
           (credentials "a@b.com" "x") "a@b.com" "x" Hu);
    [reflexivity|reflexivity|].
  exists (mkUser "a@b.com" "x"). split_and!; [left|reflexivity|reflexivity].
Defined.

(** C4: on a table that satisfies the uniqueness constraint, a login with
    a registered address and a wrong password and a login with an address
    that is not in the table get the same response, 401 with the generic
    error body. *)
Theorem login_failures_indistinguishable st e1 q p1 e2 p2 :
  unique_email st →
  mkUser e1 q ∈ st → p1 ≠ q →
  e2 ∉ email <$> st →
  login_user (credentials e1 p1) st = login_user (credentials e2 p2) st ∧
  login_user (credentials e1 p1) st = (inr login_refused, st) ∧
  login_user (credentials e2 p2) st = (inr login_refused, st).
Proof.
  intros Hu Hrow Hne Hfresh.
  assert (H1 : login_user (credentials e1 p1) st = (inr login_refused, st)).
  { apply (login_user_no_row st _ e1 p1); [reflexivity|reflexivity|].
    intros (u & Hin & He & Hp). apply Hne.
    pose proof (unique_email_row st u (mkUser e1 q) Hu Hin Hrow He) as Heq.
    subst u. by simpl in Hp. }
  assert (H2 : login_user (credentials e2 p2) st = (inr login_refused, st)).
  { apply login_user_none.
    replace (data (credentials e2 p2) !! "email") with (Some e2) by reflexivity.
    by apply filter_by_fresh. }
  by rewrite H1, H2.
Qed.

Lemma login_failures_indistinguishable_witness :
  login_user (credentials "a@b.com" "y") [mkUser "a@b.com" "x"]
  = login_user (credentials "c@d.org" "x") [mkUser "a@b.com" "x"].
Proof.
  apply (login_failures_indistinguishable
           [mkUser "a@b.com" "x"] "a@b.com" "x" "y" "c@d.org" "x");
    by_decide.
Defined.

(** C9: a login request whose body lacks the email, the password or both
    reads the missing field as [None], selects no row, and is answered
    with the generic 401 response, whatever the table holds; no exception
    escapes. *)
Theorem login_user_missing_field request st :
  data request !! "email" = None ∨ data request !! "password" = None →
  objects.filter_by (data request !! "email") (data request !! "password") st = [] ∧
  login_user request st = (inr login_refused, st).
Proof.
  intros Hmiss.
  assert (Hnil : objects.filter_by (data request !! "email")
                   (data request !! "password") st = []).
  { destruct Hmiss as [-> | ->];
      [apply filter_by_None_l | apply filter_by_None_r]. }
  split; [exact Hnil | by apply login_user_none].
Qed.

Lemma login_user_missing_field_witness :
  login_user (mkRequest {[ "email" := "a@b.com" ]}) [mkUser "a@b.com" "x"]
  = (inr login_refused, [mkUser "a@b.com" "x"]).
Proof.
  apply (login_user_missing_field (mkRequest {[ "email" := "a@b.com" ]})
           [mkUser "a@b.com" "x"]).
  right. reflexivity.
Defined.

(** C10: on a table that satisfies the uniqueness constraint the lookup
    of [login_user] selects at most one row, so [MultipleObjectsReturned],
    which the handler does not catch, is never raised: every login request
    is answered 200 or 401, and the table is left as it was. *)
Theorem login_user_total st request :
  unique_email st →
  length (objects.filter_by (data request !! "email")
            (data request !! "password") st) ≤ 1 ∧
  (login_user request st).1 ≠ inl MultipleObjectsReturned ∧
  (login_user request st = (inr login_ok, st) ∨
   login_user request st = (inr login_refused, st)).
Proof.
  intros Hu. split; [by apply filter_by_unique|].
  destruct (login_user_cases request st Hu) as [[_ Hr]|(u & _ & Hr)];
    rewrite Hr; split; try discriminate; auto.
Qed.

Lemma login_user_total_witness :
  login_user (credentials "a@b.com" "x")
    [mkUser "a@b.com" "x"; mkUser "c@d.org" "x"]
  = (inr login_ok, [mkUser "a@b.com" "x"; mkUser "c@d.org" "x"]) ∨
  login_user (credentials "a@b.com" "x")
    [mkUser "a@b.com" "x"; mkUser "c@d.org" "x"]
  = (inr login_refused, [mkUser "a@b.com" "x"; mkUser "c@d.org" "x"]).
Proof.
  apply (login_user_total [mkUser "a@b.com" "x"; mkUser "c@d.org" "x"]
           (credentials "a@b.com" "x")).
  by_decide.
Defined.

(** The branch exists: on a table that breaks the constraint the
    exception escapes [login_user]. *)
Example login_user_duplicate_rows :
  login_user (credentials "a@b.com" "x")
    [mkUser "a@b.com" "x"; mkUser "a@b.com" "x"]
  = (inl MultipleObjectsReturned, [mkUser "a@b.com" "x"; mkUser "a@b.com" "x"]).
Proof. reflexivity. Qed.

(** ** Validation *)

Section registration.

Variable email_syntax_ok : string → bool.

Local Abbreviation validate_field := (validate_field email_syntax_ok).
Local Abbreviation malformed := (malformed email_syntax_ok).
Local Abbreviation run_validation := (run_validation email_syntax_ok).
Local Abbreviation is_valid := (is_valid email_syntax_ok).
Local Abbreviation register_user := (register_user email_syntax_ok).
Local Abbreviation handle := (handle email_syntax_ok).
Local Abbreviation serve := (serve email_syntax_ok).


(** What the declaration of [email] asks of a value. *)
Lemma validate_email_nil column e :
  validate_field User_email column (Some e) = [] ↔
  e ≠ "" ∧ email_syntax_ok e = true ∧ String.length e ≤ 254 ∧ e ∉ column.
Proof.
  unfold validate_field, User_email. cbn [field_class max_length unique blank].
  destruct (decide (e = "")) as [->|Hne]; [intuition (discriminate || congruence)|].
  destruct (email_syntax_ok e); [|intuition (discriminate || congruence)].
  destruct (decide (String.length e ≤ 254)); [|intuition (discriminate || congruence)].
  cbn [app andb]. destruct (bool_decide (e ∈ column)) eqn:Hin.
  - apply bool_decide_eq_true in Hin. intuition (discriminate || congruence).
  - apply bool_decide_eq_false in Hin. intuition (discriminate || congruence).
Qed.

(** What the declaration of [password] asks of a value. *)
Lemma validate_password_nil column p :
  validate_field User_password column (Some p) = [] ↔
  p ≠ "" ∧ String.length p ≤ 128.
Proof.
  unfold validate_field, User_password. cbn [field_class max_length unique blank].
  destruct (decide (p = "")) as [->|Hne]; [intuition (discriminate || congruence)|].
  destruct (decide (String.length p ≤ 128)); intuition (discriminate || congruence).
Qed.

Lemma field_errors_nil name errs : field_errors name errs = [] ↔ errs = [].
Proof. destruct errs; intuition (discriminate || congruence). Qed.

Lemma run_validation_nil d st :
  run_validation d st = [] ↔
  validate_field User_email (email <$> st) (d !! "email") = [] ∧
  validate_field User_password (password <$> st) (d !! "password") = [].
Proof.
  unfold run_validation. rewrite app_nil, !field_errors_nil. tauto.
Qed.

(** A body that validates carries both fields. *)
Lemma run_validation_nil_fields d st :
  run_validation d st = [] →
  ∃ e p, d !! "email" = Some e ∧ d !! "password" = Some p.
Proof.
  intros [He Hp]%run_validation_nil.
  destruct (d !! "email") as [e|]; [|discriminate].
  destruct (d !! "password") as [p|]; [|discriminate].
  by exists e, p.
Qed.

(** ** [register_user] by the outcome of the validation *)

Lemma register_user_invalid request st :
  run_validation (data request) st ≠ [] →
  register_user request st
  = (inr (mkResponse (run_validation (data request) st) 400), st).
Proof.
  intros Hne.
  unfold register_user, mbind, db_bind, is_valid, UserSerializer_init.
  cbn [initial_data].
  destruct (run_validation (data request) st) as [|x l] eqn:E; [done|].
  reflexivity.
Qed.

Lemma register_user_valid request st e p :
  data request !! "email" = Some e →
  data request !! "password" = Some p →
  run_validation (data request) st = [] →
  register_user request st = (inr registered, st ++ [mkUser e p]).
Proof.
  intros He Hp Hval.
  assert (Hfresh : e ∉ email <$> st).
  { apply run_validation_nil in Hval as [Hval _]. rewrite He in Hval.
    by apply validate_email_nil in Hval as (_ & _ & _ & ?). }
  unfold register_user, mbind, db_bind, is_valid, UserSerializer_init.
  cbn [initial_data]. rewrite Hval, He, Hp.
  unfold save, objects.create. cbn [validated_data email].
  by destruct (decide (e ∈ email <$> st)).
Qed.

(** Every registration request is answered: 201 with the row added, or
    400 with the errors and the table as it was. *)
Lemma register_user_cases request st :
  (∃ e p, data request !! "email" = Some e ∧
          data request !! "password" = Some p ∧
          run_validation (data request) st = [] ∧
          register_user request st = (inr registered, st ++ [mkUser e p])) ∨
  (run_validation (data request) st ≠ [] ∧
   register_user request st
   = (inr (mkResponse (run_validation (data request) st) 400), st)).
Proof.
  destruct (run_validation (data request) st) as [|x l] eqn:E.
  - left. destruct (run_validation_nil_fields _ _ E) as (e & p & He & Hp).
    exists e, p. split_and!; try done. by apply register_user_valid.
  - right. split; [done|]. rewrite <- E. apply register_user_invalid. by rewrite E.
Qed.

(** ** The table under the handlers *)

Lemma login_user_store request st : (login_user request st).2 = st.
Proof.
  unfold login_user, try_except, mbind, db_bind, objects.get.
  by destruct (objects.filter_by _ _ st) as [|u [|v l]].
Qed.

(** The insert keeps the constraint whatever row it is given. *)
Lemma create_unique_email u st :
  unique_email st → unique_email (objects.create u st).2.
Proof.
  unfold objects.create, unique_email. intros Hu.
  destruct (decide (email u ∈ email <$> st)) as [Hin|Hfresh]; [done|].
  cbn [snd]. rewrite fmap_app. apply NoDup_app. split_and!; [done| |].
  - intros x Hx [->|[]%not_elem_of_nil]%elem_of_cons. by apply Hfresh.
  - apply NoDup_singleton.
Qed.

(** [register_user] touches the table through the insert only. *)
Lemma register_user_store request st :
  (register_user request st).2 = st ∨
  ∃ u, (register_user request st).2 = (objects.create u st).2.
Proof.
  unfold register_user, mbind, db_bind, is_valid, UserSerializer_init.
  cbn [initial_data].
  destruct (run_validation (data request) st) as [|x l]; [|by left].
  destruct (data request !! "email") as [e|]; [|by left].
  destruct (data request !! "password") as [p|]; [|by left].
  right. exists (mkUser e p). unfold save. cbn [validated_data].
  by destruct (objects.create (mkUser e p) st) as [[exn|u] st'].
Qed.

Lemma handle_unique_email c st :
  unique_email st → unique_email (handle c st).2.
Proof.
  intros Hu. destruct c as [request|request]; cbn [handle].
  - destruct (register_user_store request st) as [->|[u ->]]; [done|].
    by apply create_unique_email.
  - by rewrite login_user_store.
Qed.

Lemma handle_prefix c st : st `prefix_of` (handle c st).2.
Proof.
  destruct c as [request|request]; cbn [handle].
  - destruct (register_user_cases request st)
      as [(e & p & _ & _ & _ & ->)|[_ ->]]; cbn [snd];
      [by apply prefix_app_r | done].
  - by rewrite login_user_store.
Qed.

(** ** Registration *)

(** C3: a registration request whose email is malformed, or is already
    in the table, is answered 400 with the validation errors, among them
    an entry for the email, and the table is left as it was; a 201 is
    returned only when the validation found no error. *)
Theorem register_user_rejects_bad_email request st :
  (∀ e, data request !! "email" = Some e →
        malformed e ∨ e ∈ email <$> st →
        ∃ l, l ≠ [] ∧
             ("email", VErrors l) ∈ run_validation (data request) st ∧
             register_user request st
             = (inr (mkResponse (run_validation (data request) st)
                                status.HTTP_400_BAD_REQUEST), st)) ∧
  (∀ r st', register_user request st = (inr r, st') →
            status_code r = status.HTTP_201_CREATED →
            run_validation (data request) st = []).
Proof.
  split.
  - intros e He Hbad.
    set (l := validate_field User_email (email <$> st) (Some e)).
    assert (Hl : l ≠ []).
    { intros (Hne & Hok & Hlen & Hfresh)%validate_email_nil.
      destruct Hbad as [[?|[?|?]]|?]; [done | congruence | lia | done]. }
    assert (Hin : ("email", VErrors l) ∈ run_validation (data request) st).
    { unfold run_validation. rewrite He. fold l.
      destruct l as [|x l']; [done|]. left. }
    exists l. split_and!; [done..|].
    apply register_user_invalid. intros Hnil. rewrite Hnil in Hin.
    by apply not_elem_of_nil in Hin.
  - intros r st' Hr Hs.
    destruct (register_user_cases request st)
      as [(e & p & _ & _ & Hval & _)|[_ Hr']]; [done|].
    rewrite Hr' in Hr. inversion Hr; subst. discriminate Hs.
Qed.

(** C8: when [register_user] answers 400, the table after the request
    is the table before it. *)
Theorem register_user_400_store_unchanged request st r st' :
  register_user request st = (inr r, st') →
  status_code r = status.HTTP_400_BAD_REQUEST →
  st' = st.
Proof.
  intros Hr Hs.
  destruct (register_user_cases request st)
    as [(e & p & _ & _ & _ & Hr')|[_ Hr']];
    rewrite Hr' in Hr; inversion Hr; subst; [discriminate Hs | done].
Qed.

(** C5: the empty table has at most one row per email, every call keeps
    the property, and so does every sequence of register and login
    calls. *)
Theorem unique_email_invariant :
  unique_email [] ∧
  (∀ c st, unique_email st → unique_email (handle c st).2) ∧
  (∀ cs st, unique_email st → unique_email (serve cs st)).
Proof.
  split_and!.
  - apply NoDup_nil_2.
  - apply handle_unique_email.
  - intros cs. unfold serve.
    induction cs as [|c cs IH]; intros st Hu; cbn [foldl]; [done|].
    by apply IH, handle_unique_email.
Qed.

(** C7: a login leaves the table as it was; a registration answered 201
    appends one row, made of the email and the password of the request,
    after the rows that were there, none of which has this email; and no
    call changes or removes a row. *)
Theorem rows_never_updated_or_deleted :
  (∀ request st, (login_user request st).2 = st) ∧
  (∀ request st r st',
     register_user request st = (inr r, st') →
     status_code r = status.HTTP_201_CREATED →
     ∃ e p, data request !! "email" = Some e ∧
            data request !! "password" = Some p ∧
            (e ∉ email <$> st) ∧
            st' = st ++ [mkUser e p]) ∧
  (∀ c st, st `prefix_of` (handle c st).2).
Proof.
  split_and!.
  - apply login_user_store.
  - intros request st r st' Hr Hs.
    destruct (register_user_cases request st)
      as [(e & p & He & Hp & Hval & Hr')|[_ Hr']];
      rewrite Hr' in Hr; inversion Hr; subst; [|discriminate Hs].
    exists e, p. split_and!; try done.
    apply run_validation_nil in Hval as [Hval _]. rewrite He in Hval.
    by apply validate_email_nil in Hval as (_ & _ & _ & ?).
  - apply handle_prefix.
Qed.

(** C2, amended: for every well-formed email (not empty, of at most 254
    characters, accepted by the syntax test) that is not in the table and
    every password the validation accepts, the registration is answered
    201 and stores the pair, and a login with the same pair on the
    resulting table is answered 200 with [{"success": true}]. *)
Theorem register_then_login request st e p :
  data request !! "email" = Some e →
  data request !! "password" = Some p →
  e ∉ email <$> st →
  e ≠ "" → String.length e ≤ 254 → email_syntax_ok e = true →
  validate_field User_password (password <$> st) (Some p) = [] →
  register_user request st = (inr registered, st ++ [mkUser e p]) ∧
  login_user request (st ++ [mkUser e p]) = (inr login_ok, st ++ [mkUser e p]).
Proof.
  intros He Hp Hfresh Hne Hlen Hok Hpw. split.
  - apply register_user_valid; [done..|].
    apply run_validation_nil. rewrite He, Hp. split; [|done].
    by apply validate_email_nil.
  - apply (login_user_one _ _ (mkUser e p)). rewrite He, Hp.
    unfold objects.filter_by. rewrite List.filter_app.
    fold (objects.filter_by (Some e) (Some p) st).
    rewrite (filter_by_fresh e (Some p) st Hfresh).
    cbn. by rewrite !bool_decide_eq_true_2.
Qed.


End registration.

(** ** The handlers on concrete requests *)

Lemma register_user_rejects_bad_email_witness :
  (∃ l, l ≠ [] ∧
     ("email", VErrors l)
       ∈ run_validation contains_at (data (credentials "a@b.com" "y"))
           [mkUser "a@b.com" "x"] ∧
     register_user contains_at (credentials "a@b.com" "y") [mkUser "a@b.com" "x"]
     = (inr (mkResponse
               (run_validation contains_at (data (credentials "a@b.com" "y"))
                  [mkUser "a@b.com" "x"]) 400),
        [mkUser "a@b.com" "x"])) ∧
  run_validation contains_at (data (credentials "a@b.com" "x")) [] = [].
Proof.
  split.
  - apply (proj1 (register_user_rejects_bad_email contains_at
                    (credentials "a@b.com" "y") [mkUser "a@b.com" "x"])
             "a@b.com"); [reflexivity | right; by_decide].
  - apply (proj2 (register_user_rejects_bad_email contains_at
                    (credentials "a@b.com" "x") [])
             registered [mkUser "a@b.com" "x"]); reflexivity.
Defined.

Lemma register_user_400_store_unchanged_witness :
  register_user contains_at (credentials "a@b.com" "y") [mkUser "a@b.com" "x"]
  = (inr (mkResponse [("email", VErrors [unique_error])] 400),
     [mkUser "a@b.com" "x"]) ∧
  [mkUser "a@b.com" "x"] = [mkUser "a@b.com" "x"].
Proof.
  split; [reflexivity|].
  apply (register_user_400_store_unchanged contains_at
           (credentials "a@b.com" "y") [mkUser "a@b.com" "x"]
           (mkResponse [("email", VErrors [unique_error])] 400)
           [mkUser "a@b.com" "x"]); reflexivity.
Defined.

Lemma unique_email_invariant_witness :
  unique_email
    (serve contains_at
       [Register (credentials "a@b.com" "x");
        Register (credentials "a@b.com" "y");
        Login (credentials "a@b.com" "y");
        Register (credentials "c@d.org" "x")]
       []).
Proof.
  apply (proj2 (proj2 (unique_email_invariant contains_at))).
  apply (proj1 (unique_email_invariant contains_at)).
Defined.

Lemma rows_never_updated_or_deleted_witness :
  ∃ e p,
    data (credentials "c@d.org" "x") !! "email" = Some e ∧
    data (credentials "c@d.org" "x") !! "password" = Some p ∧
    (e ∉ email <$> [mkUser "a@b.com" "x"]) ∧
    [mkUser "a@b.com" "x"; mkUser "c@d.org" "x"]
    = [mkUser "a@b.com" "x"] ++ [mkUser e p].
Proof.
  apply (proj1 (proj2 (rows_never_updated_or_deleted contains_at))
           (credentials "c@d.org" "x") [mkUser "a@b.com" "x"] registered);
    reflexivity.
Defined.

(** C2 fails as stated: on the empty table the address [not-an-email] is
    not present and the password [x] is accepted, yet the registration is
    answered 400, and the login that follows 401. *)
Lemma register_fresh_malformed_email_refused :
  validate_field contains_at User_password [] (Some "x") = [] ∧
  register_user contains_at (credentials "not-an-email" "x") []
  = (inr (mkResponse [("email", VErrors [invalid])] 400), []) ∧
  login_user (credentials "not-an-email" "x") [] = (inr login_refused, []).
Proof. split_and!; reflexivity. Qed.

Lemma register_then_login_witness :
  register_user contains_at (credentials "a@b.com" "x") []
  = (inr registered, [mkUser "a@b.com" "x"]) ∧
  login_user (credentials "a@b.com" "x") [mkUser "a@b.com" "x"]
  = (inr login_ok, [mkUser "a@b.com" "x"]).
Proof.
  apply (register_then_login contains_at (credentials "a@b.com" "x") []
           "a@b.com" "x");
    first [reflexivity | by_decide].
Defined.



(** * Further properties of the handlers *)

(** ** [login_user] on any table *)

Lemma exact_true_Some ov column :
  objects.exact ov column = true → ov = Some column.
Proof.
  destruct ov as [s|]; [|discriminate].
  intros ->%exact_Some. reflexivity.
Qed.

(** X1: whatever the table holds, also one that breaks the uniqueness
    constraint, [login_user] answers 200 only when the body carries both
    fields and a row of the table has exactly this email and this
    password. *)
Theorem login_user_200_sound request st :
  (login_user request st).1 = inr login_ok →
  ∃ e p, data request !! "email" = Some e ∧
         data request !! "password" = Some p ∧
         mkUser e p ∈ st.
Proof.
  intros Hok.
  destruct (objects.filter_by (data request !! "email")
              (data request !! "password") st) as [|u [|v l]] eqn:E.
  - rewrite (login_user_none _ _ E) in Hok. discriminate.
  - assert (Hu : u ∈ objects.filter_by (data request !! "email")
                     (data request !! "password") st) by (rewrite E; left).
    apply elem_of_filter_by in Hu as (Hin & He & Hp).
    exists (email u), (password u).
    split_and!; [by apply exact_true_Some..|]. by destruct u.
  - rewrite (login_user_many _ _ _ _ _ E) in Hok. discriminate.
Qed.

Lemma login_user_200_sound_witness :
  ∃ e p, data (credentials "a@b.com" "x") !! "email" = Some e ∧
         data (credentials "a@b.com" "x") !! "password" = Some p ∧
         mkUser e p ∈ [mkUser "c@d.org" "z"; mkUser "a@b.com" "x"].
Proof.
  apply (login_user_200_sound (credentials "a@b.com" "x")
           [mkUser "c@d.org" "z"; mkUser "a@b.com" "x"]).
  reflexivity.
Defined.

Lemma filter_by_Permutation oe op (st st' : Store) :
  st ≡ₚ st' → objects.filter_by oe op st ≡ₚ objects.filter_by oe op st'.
Proof.
  unfold objects.filter_by.
  induction 1 as [|u st st' _ IH|u v st|st1 st2 st3 _ IH1 _ IH2];
    cbn [List.filter].
  - done.
  - destruct (_ && _); [by constructor | done].
  - do 2 destruct (_ && _); try done. apply perm_swap.
  - by etrans.
Qed.

(** X2: the answer of [login_user] depends on the rows of the table, not
    on the order in which they were inserted. *)
Theorem login_user_order_irrelevant request (st st' : Store) :
  st ≡ₚ st' → (login_user request st).1 = (login_user request st').1.
Proof.
  intros Hperm.
  pose proof (filter_by_Permutation (data request !! "email")
                (data request !! "password") st st' Hperm) as Hf.
  destruct (objects.filter_by (data request !! "email")
              (data request !! "password") st) as [|u [|v l]] eqn:E.
  - apply Permutation_nil_l in Hf.
    by rewrite (login_user_none _ _ E), (login_user_none request st').
  - apply Permutation_singleton_l in Hf.
    by rewrite (login_user_one _ _ _ E), (login_user_one request st' u).
  - destruct (objects.filter_by (data request !! "email")
                (data request !! "password") st') as [|u' [|v' l']] eqn:E'.
    + by apply Permutation_nil_r in Hf.
    + by apply Permutation_singleton_r in Hf.
    + by rewrite (login_user_many _ _ _ _ _ E), (login_user_many _ _ _ _ _ E').
Qed.

Lemma login_user_order_irrelevant_witness :
  (login_user (credentials "a@b.com" "x")
     [mkUser "c@d.org" "z"; mkUser "a@b.com" "x"]).1
  = (login_user (credentials "a@b.com" "x")
       [mkUser "a@b.com" "x"; mkUser "c@d.org" "z"]).1.
Proof.
  apply (login_user_order_irrelevant (credentials "a@b.com" "x")
           [mkUser "c@d.org" "z"; mkUser "a@b.com" "x"]
           [mkUser "a@b.com" "x"; mkUser "c@d.org" "z"]).
  apply perm_swap.
Defined.

(** ** [User.__str__] *)



(** ** Sequences of calls *)

Section sequences.

Variable email_syntax_ok : string → bool.

Local Abbreviation validate_field := (validate_field email_syntax_ok).
Local Abbreviation run_validation := (run_validation email_syntax_ok).
Local Abbreviation register_user := (register_user email_syntax_ok).
Local Abbreviation handle := (handle email_syntax_ok).
Local Abbreviation serve := (serve email_syntax_ok).
Local Abbreviation valid_row := (valid_row email_syntax_ok).

Lemma serve_cons c cs st : serve (c :: cs) st = serve cs (handle c st).2.
Proof. reflexivity. Qed.

Lemma serve_prefix cs st : st `prefix_of` serve cs st.
Proof.
  revert st. induction cs as [|c cs IH]; intros st; [done|].
  rewrite serve_cons. etrans; [apply handle_prefix | apply IH].
Qed.

Lemma serve_unique_email cs st : unique_email st → unique_email (serve cs st).
Proof.
  revert st. induction cs as [|c cs IH]; intros st Hu; [done|].
  rewrite serve_cons. by apply IH, handle_unique_email.
Qed.

Lemma has_row_prefix st st' e p :
  st `prefix_of` st' → has_row st e p → has_row st' e p.
Proof.
  intros [k ->] (u & Hin & He & Hp). exists u.
  split_and!; [|done..]. apply elem_of_app. by left.
Qed.

(** A body whose email is in the table does not validate. *)
Lemma run_validation_taken d st e :
  d !! "email" = Some e → e ∈ email <$> st → run_validation d st ≠ [].
Proof.
  intros He Hin [Hval _]%run_validation_nil. rewrite He in Hval.
  by apply validate_email_nil in Hval as (_ & _ & _ & ?).
Qed.

(** X4: stored credentials keep working.  If a table that satisfies the
    uniqueness constraint has the row [(e, p)], then after any sequence of
    register and login calls a login with [e] and [p] is still answered
    200: no call changes a password or removes an account. *)
Theorem credentials_persist cs st request e p :
  unique_email st →
  has_row st e p →
  data request !! "email" = Some e →
  data request !! "password" = Some p →
  login_user request (serve cs st) = (inr login_ok, serve cs st).
Proof.
  intros Hu Hrow He Hp.
  apply (login_user_has_row _ _ e p); [|done..|].
  - by apply serve_unique_email.
  - by apply (has_row_prefix st), Hrow; apply serve_prefix.
Qed.

(** X5: a taken email stays taken.  If the table has a row with the
    email [e], then after any sequence of calls a registration with [e],
    whatever its password, is answered 400 with the validation errors and
    leaves the table as it was. *)
Theorem taken_email_stays_taken cs st request e :
  e ∈ email <$> st →
  data request !! "email" = Some e →
  run_validation (data request) (serve cs st) ≠ [] ∧
  register_user request (serve cs st)
  = (inr (mkResponse (run_validation (data request) (serve cs st))
                     status.HTTP_400_BAD_REQUEST),
     serve cs st).
Proof.
  intros Hin He.
  assert (Hne : run_validation (data request) (serve cs st) ≠ []).
  { apply (run_validation_taken _ _ e He).
    destruct (serve_prefix cs st) as [k ->].
    rewrite fmap_app. apply elem_of_app. by left. }
  split; [done | by apply register_user_invalid].
Qed.

(** X6: [register_user] lets no exception escape: on every table and
    every body it returns a response, with status 201 or 400; the insert
    is never refused by the unique index, and [save] is never called on
    a serializer that did not validate. *)
Theorem register_user_never_raises request st :
  ∃ r, (register_user request st).1 = inr r ∧
       (status_code r = status.HTTP_201_CREATED ∨
        status_code r = status.HTTP_400_BAD_REQUEST).
Proof.
  destruct (register_user_cases email_syntax_ok request st)
    as [(e & p & _ & _ & _ & ->)|[_ ->]]; eexists; split; eauto.
Qed.

(** X7: a wrong password right after the registration.  When a
    registration of [(e, p)] is answered 201, a login on the resulting
    table with [e] and any other password is answered 401, whatever the
    table held before. *)
Theorem register_then_wrong_password request st r st' login e p p' :
  data request !! "email" = Some e →
  data request !! "password" = Some p →
  register_user request st = (inr r, st') →
  status_code r = status.HTTP_201_CREATED →
  data login !! "email" = Some e →
  data login !! "password" = Some p' →
  p' ≠ p →
  login_user login st' = (inr login_refused, st').
Proof.
  intros He Hp Hr Hs Hle Hlp Hne.
  destruct (register_user_cases email_syntax_ok request st)
    as [(e0 & p0 & He0 & Hp0 & Hval & Hr')|[_ Hr']];
    rewrite Hr' in Hr; inversion Hr; subst; [|discriminate Hs].
  assert (e0 = e) by congruence. assert (p0 = p) by congruence. subst e0 p0.
  assert (Hfresh : e ∉ email <$> st).
  { apply run_validation_nil in Hval as [Hval _]. rewrite He in Hval.
    by apply validate_email_nil in Hval as (_ & _ & _ & ?). }
  apply login_user_none. rewrite Hle, Hlp.
  unfold objects.filter_by. rewrite List.filter_app.
  fold (objects.filter_by (Some e) (Some p') st).
  rewrite (filter_by_fresh e (Some p') st Hfresh).
  cbn. rewrite bool_decide_eq_true_2 by done.
  by rewrite bool_decide_eq_false_2 by congruence.
Qed.


(** What one call adds to the table: nothing, or for a registration the
    one row of its body, which meets the declarations of [User]. *)
Lemma handle_added c st :
  (handle c st).2 = st ∨
  ∃ u, is_register c = true ∧ valid_row u ∧ (handle c st).2 = st ++ [u].
Proof.
  destruct c as [request|request]; cbn [handle];
    [|left; apply login_user_store].
  destruct (register_user_cases email_syntax_ok request st)
    as [(e & p & He & Hp & Hval & ->)|[_ ->]]; [|by left].
  right. exists (mkUser e p). split_and!; [done| |done].
  apply run_validation_nil in Hval as [Hve Hvp]. rewrite He in Hve.
  rewrite Hp in Hvp.
  apply validate_email_nil in Hve as (? & ? & ? & _).
  apply validate_password_nil in Hvp as (? & ?).
  by repeat split.
Qed.


(** X10: a sequence of calls only appends rows to the table, at most one
    for each registration in it; a sequence of logins leaves the table as
    it was. *)
Theorem serve_appends_per_register cs st :
  (∃ added, serve cs st = st ++ added ∧
            length added ≤ length (List.filter is_register cs)) ∧
  (Forall (λ c, is_register c = false) cs → serve cs st = st).
Proof.
  assert (H : ∃ added, serve cs st = st ++ added ∧
                length added ≤ length (List.filter is_register cs)).
  { revert st. induction cs as [|c cs IH]; intros st.
    - exists []. split; [by rewrite app_nil_r | done].
    - rewrite serve_cons. cbn [List.filter].
      destruct (IH (handle c st).2) as (added & -> & Hlen).
      destruct (handle_added c st) as [->|(u & -> & _ & ->)].
      + exists added. split; [done|]. destruct (is_register c); simpl; lia.
      + exists (u :: added). split; [by rewrite <- app_assoc | simpl; lia]. }
  split; [exact H|].
  intros Hlogin. destruct H as (added & -> & Hlen).
  assert (Hnone : List.filter is_register cs = []).
  { clear Hlen. induction Hlogin as [|c cs Hc _ IH]; [done|].
    cbn [List.filter]. by rewrite Hc. }
  rewrite Hnone in Hlen. destruct added; [by rewrite app_nil_r|simpl in Hlen; lia].
Qed.


End sequences.

(** ** The sequences on concrete calls *)

Lemma credentials_persist_witness :
  login_user (credentials "a@b.com" "x")
    (serve contains_at
       [Register (credentials "a@b.com" "y");
        Login (credentials "a@b.com" "y");
        Register (credentials "c@d.org" "z")]
       [mkUser "a@b.com" "x"])
  = (inr login_ok, [mkUser "a@b.com" "x"; mkUser "c@d.org" "z"]).
Proof.
  apply (credentials_persist contains_at
           [Register (credentials "a@b.com" "y");
            Login (credentials "a@b.com" "y");
            Register (credentials "c@d.org" "z")]
           [mkUser "a@b.com" "x"] (credentials "a@b.com" "x") "a@b.com" "x");
    [by_decide | | reflexivity | reflexivity].
  exists (mkUser "a@b.com" "x"). split_and!; [left | reflexivity | reflexivity].
Defined.

Lemma taken_email_stays_taken_witness :
  register_user contains_at (credentials "a@b.com" "y")
    (serve contains_at [Register (credentials "c@d.org" "z")]
       [mkUser "a@b.com" "x"])
  = (inr (mkResponse [("email", VErrors [unique_error])] 400),
     [mkUser "a@b.com" "x"; mkUser "c@d.org" "z"]).
Proof.
  refine (proj2 (taken_email_stays_taken contains_at
                   [Register (credentials "c@d.org" "z")]
                   [mkUser "a@b.com" "x"] (credentials "a@b.com" "y")
                   "a@b.com" _ _));
    [by_decide | reflexivity].
Defined.

Lemma register_then_wrong_password_witness :
  login_user (credentials "a@b.com" "y") [mkUser "a@b.com" "x"]
  = (inr login_refused, [mkUser "a@b.com" "x"]).
Proof.
  apply (register_then_wrong_password contains_at
           (credentials "a@b.com" "x") [] registered [mkUser "a@b.com" "x"]
           (credentials "a@b.com" "y") "a@b.com" "x" "y");
    first [reflexivity | by_decide].
Defined.



Lemma serve_appends_per_register_witness :
  serve contains_at
    [Login (credentials "a@b.com" "x"); Login (credentials "c@d.org" "z")]
    [mkUser "a@b.com" "x"]
  = [mkUser "a@b.com" "x"].
Proof.
  apply (proj2 (serve_appends_per_register contains_at
                  [Login (credentials "a@b.com" "x");
                   Login (credentials "c@d.org" "z")]
                  [mkUser "a@b.com" "x"])).
  repeat constructor.
Defined.


(** ** The exception [login_user] does not catch *)

(** X12: on any table, the only exception that escapes [login_user] is
    [MultipleObjectsReturned], and it escapes exactly when at least two
    rows have the email and the password of the body. *)
Theorem login_user_raises request st :
  (∀ exn, (login_user request st).1 = inl exn → exn = MultipleObjectsReturned) ∧
  ((login_user request st).1 = inl MultipleObjectsReturned ↔
   2 ≤ length (objects.filter_by (data request !! "email")
                 (data request !! "password") st)).
Proof.
  destruct (objects.filter_by (data request !! "email")
              (data request !! "password") st) as [|u [|v l]] eqn:E.
  - rewrite (login_user_none _ _ E). cbn [fst length].
    split; [discriminate | split; [discriminate | lia]].
  - rewrite (login_user_one _ _ _ E). cbn [fst length].
    split; [discriminate | split; [discriminate | lia]].
  - rewrite (login_user_many _ _ _ _ _ E). cbn [fst length].
    split; [by intros exn [= <-] | split; [lia | done]].
Qed.

Lemma login_user_raises_witness :
  2 ≤ length (objects.filter_by
                (data (credentials "a@b.com" "x") !! "email")
                (data (credentials "a@b.com" "x") !! "password")
                [mkUser "a@b.com" "x"; mkUser "a@b.com" "x"]).
Proof.
  apply (proj2 (login_user_raises (credentials "a@b.com" "x")
                  [mkUser "a@b.com" "x"; mkUser "a@b.com" "x"])).
  reflexivity.
Defined.

(** ** When [register_user] accepts *)

Section acceptance.

Variable email_syntax_ok : string → bool.

Local Abbreviation run_validation := (run_validation email_syntax_ok).
Local Abbreviation register_user := (register_user email_syntax_ok).


End acceptance.

